(** * Sophus SO2: the rotation group of the plane as a unit complex number

    A shallow embedding of [sophus/so2.hpp].  The class template is
    instantiated twice: at the exact real numbers ([Sophus]), where
    [sqrt], [sin], [cos] and [atan2] are the mathematical functions and
    the group laws are exact equalities, and at binary64 floating-point
    numbers ([SophusDouble], the header's [SO2d]), where every operation
    rounds as IEEE 754 prescribes.

    Member functions are computations over the receiver's storage
    ([unit_complex_]); a failed [assert] aborts the computation. *)

From Stdlib Require Import Reals Lra Psatz Bool ZArith.
From Stdlib Require Floats.

Set Warnings "-inexact-float".

Local Open Scope R_scope.

(** ** Scalars *)

Definition Scalar : Type := R.

(** Comparisons as the C++ boolean expressions they stand for. *)
Definition Rgtb (a b : Scalar) : bool := if Rgt_dec a b then true else false.
Definition Rltb (a b : Scalar) : bool := if Rlt_dec a b then true else false.

(** [SophusConstants<Scalar>::epsilon()] is declared in [sophus.hpp]; its
    value is a parameter of the development. *)
Class SophusConstants : Type := { epsilon : Scalar }.

(** ** The functions of <cmath> used by the header *)
Module Cmath.

(** Two-argument arc tangent: the angle of the point [(x, y)], with the
    branch cut along the negative real axis and [atan2 0 0 = 0]. *)
Definition atan2 (y x : Scalar) : Scalar :=
  if Rlt_dec 0 x then atan (y / x)
  else if Rlt_dec x 0 then
         if Rle_dec 0 y then atan (y / x) + PI else atan (y / x) - PI
  else if Rlt_dec 0 y then PI / 2
  else if Rlt_dec y 0 then - (PI / 2)
  else 0.

Definition fabs (a : Scalar) : Scalar := Rabs a.

End Cmath.

(** ** The fixed-size Eigen types *)
Module Eigen.

(** [Matrix<Scalar,2,1>] with its accessors [x()] and [y()]. *)
Record Matrix21 : Type := Vec { x : Scalar; y : Scalar }.

(** [Matrix<Scalar,2,2>]; [mIJ] is the coefficient [(I,J)]. *)
Record Matrix22 : Type :=
  Mat { m00 : Scalar; m01 : Scalar; m10 : Scalar; m11 : Scalar }.

(** [v.template cast<NewScalarType>()]: both scalar types are the reals. *)
Definition cast (v : Matrix21) : Matrix21 := Vec (x v) (y v).

(** The modulus of a 2-vector read as a complex number. *)
Definition abs (v : Matrix21) : Scalar := sqrt (x v * x v + y v * y v).

Definition transpose (M : Matrix22) : Matrix22 :=
  Mat (m00 M) (m10 M) (m01 M) (m11 M).

Definition mul (A B : Matrix22) : Matrix22 :=
  Mat (m00 A * m00 B + m01 A * m10 B) (m00 A * m01 B + m01 A * m11 B)
      (m10 A * m00 B + m11 A * m10 B) (m10 A * m01 B + m11 A * m11 B).

Definition Identity : Matrix22 := Mat 1 0 0 1.

Definition determinant (M : Matrix22) : Scalar :=
  m00 M * m11 M - m01 M * m10 M.

(** Matrix times column vector, and the difference of two matrices. *)
Definition mulvec (M : Matrix22) (v : Matrix21) : Matrix21 :=
  Vec (m00 M * x v + m01 M * y v) (m10 M * x v + m11 M * y v).

Definition sub (A B : Matrix22) : Matrix22 :=
  Mat (m00 A - m00 B) (m01 A - m01 B) (m10 A - m10 B) (m11 A - m11 B).

End Eigen.

(** ** Outcomes and the monads of member functions *)

(** A call either returns or stops at a failed [assert]. *)
Inductive Outcome (A : Type) : Type :=
| Returns (a : A)
| AssertionFailed.

Arguments Returns {A} a.
Arguments AssertionFailed {A}.

Class Monad (M : Type -> Type) : Type :=
  { ret : forall {A : Type}, A -> M A;
    bind : forall {A B : Type}, M A -> (A -> M B) -> M B }.

Declare Scope monad_scope.
Delimit Scope monad_scope with monad.
Notation "v <- m ;; k" := (bind m (fun v => k))
  (at level 61, m at next level, right associativity) : monad_scope.
Notation "m ;; k" := (bind m (fun _ => k))
  (at level 61, right associativity) : monad_scope.
Local Open Scope monad_scope.

#[global] Instance Outcome_Monad : Monad Outcome :=
  { ret := fun A a => Returns a;
    bind := fun A B m k =>
              match m with
              | Returns a => k a
              | AssertionFailed => AssertionFailed
              end }.

Module Sophus.

(** [SO2Group<Scalar>]: the only data member is [unit_complex_]. *)
Record SO2Group : Type := Build { unit_complex_ : Eigen.Matrix21 }.

(** A member function called on a receiver: it returns a value together
    with the receiver's storage after the call. *)
Definition Method (A : Type) : Type := SO2Group -> Outcome (A * SO2Group).

#[global] Instance Method_Monad : Monad Method :=
  { ret := fun A a this => Returns (a, this);
    bind := fun A B m k this =>
              match m this with
              | Returns (a, this') => k a this'
              | AssertionFailed => AssertionFailed
              end }.

(** [assert(cond)] *)
Definition assert (cond : bool) : Method unit :=
  fun this => if cond then Returns (tt, this) else AssertionFailed.

(** A callee's outcome inside a member function. *)
Definition lift {A : Type} (o : Outcome A) : Method A :=
  fun this => match o with
              | Returns a => Returns (a, this)
              | AssertionFailed => AssertionFailed
              end.

(** The value a call returns, and the receiver a call leaves behind. *)
Definition call {A : Type} (m : Method A) (this : SO2Group) : Outcome A :=
  match m this with
  | Returns (a, _) => Returns a
  | AssertionFailed => AssertionFailed
  end.

Definition after {A : Type} (m : Method A) (this : SO2Group)
  : Outcome SO2Group :=
  match m this with
  | Returns (_, this') => Returns this'
  | AssertionFailed => AssertionFailed
  end.

(** [*this] *)
Definition self : Method SO2Group := fun this => Returns (this, this).

(** [unit_complex()]: read access to the stored pair. *)
Definition unit_complex : Method Eigen.Matrix21 :=
  fun this => Returns (unit_complex_ this, this).

(** Writes through [unit_complex_nonconst()]. *)
Definition unit_complex_nonconst_assign (v : Eigen.Matrix21) : Method unit :=
  fun _ => Returns (tt, Build v).

Definition unit_complex_nonconst_x_assign (v : Scalar) : Method unit :=
  fun this => Returns (tt, Build (Eigen.Vec v (Eigen.y (unit_complex_ this)))).

Definition unit_complex_nonconst_y_assign (v : Scalar) : Method unit :=
  fun this => Returns (tt, Build (Eigen.Vec (Eigen.x (unit_complex_ this)) v)).

(** A [const SO2Group<Scalar>&] argument: it names another object or the
    receiver itself; in the second case a read sees the receiver's
    current storage. *)
Inductive ConstRef : Type :=
| distinct (o : SO2Group)
| receiver.

Definition deref (r : ConstRef) : Method SO2Group :=
  match r with
  | distinct o => ret o
  | receiver => self
  end.

Section Group.
Context {K : SophusConstants}.

(** [Adj()] *)
Definition Adj : Method Scalar := ret 1.

(** [fastMultiply(other)]: [lhs_real] and [lhs_imag] are copies, [rhs_real]
    and [rhs_imag] are references into [other], read when they are used. *)
Definition fastMultiply (other : ConstRef) : Method unit :=
  c <- unit_complex ;;
  let lhs_real := Eigen.x c in
  let lhs_imag := Eigen.y c in
  o <- deref other ;;
  let rhs_real := Eigen.x (unit_complex_ o) in
  let rhs_imag := Eigen.y (unit_complex_ o) in
  unit_complex_nonconst_x_assign (lhs_real * rhs_real - lhs_imag * rhs_imag) ;;
  o <- deref other ;;
  let rhs_real := Eigen.x (unit_complex_ o) in
  let rhs_imag := Eigen.y (unit_complex_ o) in
  unit_complex_nonconst_y_assign (lhs_real * rhs_imag + lhs_imag * rhs_real).

(** [normalize()] *)
Definition normalize : Method unit :=
  c <- unit_complex ;;
  let length := sqrt (Eigen.x c * Eigen.x c + Eigen.y c * Eigen.y c) in
  assert (Rgtb length epsilon) ;;
  c <- unit_complex ;;
  unit_complex_nonconst_x_assign (Eigen.x c / length) ;;
  c <- unit_complex ;;
  unit_complex_nonconst_y_assign (Eigen.y c / length).

(** Runs a constructor body on the freshly initialised members. *)
Definition construct (init : SO2Group) (body : Method unit)
  : Outcome SO2Group := after body init.

(** [SO2Group()] *)
Definition SO2Group_default : SO2Group := Build (Eigen.Vec 1 0).

(** [SO2Group(const SO2GroupBase<OtherDerived>& other)] *)
Definition SO2Group_copy (other : SO2Group) : SO2Group :=
  Build (unit_complex_ other).

(** [SO2Group(const Matrix<Scalar,2,2>& R)] *)
Definition SO2Group_from_matrix (R : Eigen.Matrix22) : SO2Group :=
  Build (Eigen.Vec (0.5 * (Eigen.m00 R + Eigen.m11 R))
                   (0.5 * (Eigen.m10 R - Eigen.m01 R))).

(** [SO2Group(const Scalar& real, const Scalar& imag)] *)
Definition SO2Group_from_pair (real imag : Scalar) : Outcome SO2Group :=
  construct (Build (Eigen.Vec real imag))
            (assert (Rgtb (real * real + imag * imag) epsilon) ;;
             normalize).

(** [SO2Group(const ComplexType& complex)] *)
Definition SO2Group_from_vector (complex : Eigen.Matrix21)
  : Outcome SO2Group :=
  construct (Build complex)
            (assert (Rgtb (Eigen.x complex * Eigen.x complex
                           + Eigen.y complex * Eigen.y complex) epsilon) ;;
             normalize).


(** [exp(theta)] *)
Definition exp (theta : Scalar) : Outcome SO2Group :=
  SO2Group_from_vector (Eigen.Vec (cos theta) (sin theta)).

(** [SO2Group(Scalar theta)] *)
Definition SO2Group_from_angle (theta : Scalar) : Outcome SO2Group :=
  e <- exp theta ;;
  ret (Build (unit_complex_ e)).

(** [inverse()] *)
Definition inverse : Method SO2Group :=
  c <- unit_complex ;;
  c' <- unit_complex ;;
  lift (SO2Group_from_pair (Eigen.x c) (- Eigen.y c')).

(** static [log(other)] *)
Definition log (other : SO2Group) : Scalar :=
  Cmath.atan2 (Eigen.y (unit_complex_ other)) (Eigen.x (unit_complex_ other)).

(** member [log()] *)
Definition log_member : Method Scalar :=
  this <- self ;;
  ret (log this).

(** [matrix()] *)
Definition matrix : Method Eigen.Matrix22 :=
  c <- unit_complex ;;
  let real := Eigen.x c in
  let imag := Eigen.y c in
  ret (Eigen.Mat real (- imag) imag real).


(** [operator*=(other)] *)
Definition operator_mul_assign (other : ConstRef) : Method unit :=
  fastMultiply other ;;
  normalize.

(** [operator*(other)]: [result] is a new object, so [other] never names
    it, even when [other] is the receiver. *)
Definition operator_mul (other : ConstRef) : Method SO2Group :=
  this <- self ;;
  o <- deref other ;;
  lift (construct (SO2Group_copy this) (operator_mul_assign (distinct o))).

(** [operator*(p)]: the action on a point of the plane. *)
Definition operator_mul_point (p : Eigen.Matrix21) : Method Eigen.Matrix21 :=
  c <- unit_complex ;;
  let real := Eigen.x c in
  let imag := Eigen.y c in
  ret (Eigen.Vec (real * Eigen.x p - imag * Eigen.y p)
                 (imag * Eigen.x p + real * Eigen.y p)).

(** [hat(theta)] *)
Definition hat (theta : Scalar) : Eigen.Matrix22 :=
  Eigen.Mat 0 (- theta) theta 0.

(** [generator()] *)
Definition generator : Eigen.Matrix22 := hat 1.

(** [lieBracket(theta1, theta2)] *)
Definition lieBracket (theta1 theta2 : Scalar) : Scalar := 0.

(** [vee(Omega)] *)
Definition vee (Omega : Eigen.Matrix22) : Outcome Scalar :=
  if Rltb (Cmath.fabs (Eigen.m10 Omega + Eigen.m01 Omega)) epsilon
  then Returns (Eigen.m10 Omega)
  else AssertionFailed.

End Group.

(** [cast<NewScalarType>()]; [K'] holds the constants of the new scalar
    type. *)
Definition cast (K' : SophusConstants) : Method SO2Group :=
  c <- unit_complex ;;
  lift (@SO2Group_from_vector K' (Eigen.cast c)).

(** The unit-length invariant of the stored pair. *)
Definition unit_length (A : SO2Group) : Prop :=
  Eigen.x (unit_complex_ A) * Eigen.x (unit_complex_ A)
  + Eigen.y (unit_complex_ A) * Eigen.y (unit_complex_ A) = 1.

(** The precondition of the constructor from a matrix: orthogonal with
    determinant one. *)
Definition rotation_matrix (R : Eigen.Matrix22) : Prop :=
  Eigen.mul (Eigen.transpose R) R = Eigen.Identity /\
  Eigen.determinant R = 1.

(** Sample data: a threshold of 1e-10 and the rotation (3/5, 4/5). *)
Definition sample_constants : SophusConstants := {| epsilon := 1e-10 |}.

Definition sample_rotation : SO2Group := Build (Eigen.Vec 0.6 0.8).

End Sophus.

(** * The instantiation at double precision

    [SO2Group<double>] ([SO2d]) over binary64 numbers: the same member
    functions as in [Sophus], with the arithmetic, the square root and
    the comparisons of IEEE 754. *)
Module SophusDouble.
Import FloatClass PrimFloat.
Local Open Scope float_scope.

Definition Scalar : Type := float.

(** [SophusConstants<double>::epsilon()], a parameter as above. *)
Class SophusConstants : Type := { epsilon : Scalar }.

(** [M_PI] *)
Definition M_PI : Scalar := 0x1.921fb54442d18p+1.

(** The values of the C library's [atan2] that Annex F of the C standard
    fixes when [y] is a zero: the zero [y] itself for [x] of positive
    sign, and [M_PI] with the sign of [y] for [x] of negative sign.
    Every other value is the library's rounding of the mathematical
    result and is not modelled. *)
Definition atan2 (y x : Scalar) : option Scalar :=
  match classify y, classify x with
  | (PZero | NZero), (PZero | PSubn | PNormal | PInf) => Some y
  | PZero, (NZero | NSubn | NNormal | NInf) => Some M_PI
  | NZero, (NZero | NSubn | NNormal | NInf) => Some (- M_PI)
  | _, _ => None
  end.

(** [Matrix<double,2,1>] and [Matrix<double,2,2>] *)
Record Matrix21 : Type := Vec { x : Scalar; y : Scalar }.

Record Matrix22 : Type :=
  Mat { m00 : Scalar; m01 : Scalar; m10 : Scalar; m11 : Scalar }.

Definition transpose (M : Matrix22) : Matrix22 :=
  Mat (m00 M) (m10 M) (m01 M) (m11 M).

(** [SO2Group<double>] *)
Record SO2Group : Type := Build { unit_complex_ : Matrix21 }.

Definition Method (A : Type) : Type := SO2Group -> Outcome (A * SO2Group).

#[export] Instance Method_Monad : Monad Method :=
  { ret := fun A a this => Returns (a, this);
    bind := fun A B m k this =>
              match m this with
              | Returns (a, this') => k a this'
              | AssertionFailed => AssertionFailed
              end }.

Definition assert (cond : bool) : Method unit :=
  fun this => if cond then Returns (tt, this) else AssertionFailed.

Definition lift {A : Type} (o : Outcome A) : Method A :=
  fun this => match o with
              | Returns a => Returns (a, this)
              | AssertionFailed => AssertionFailed
              end.

Definition call {A : Type} (m : Method A) (this : SO2Group) : Outcome A :=
  match m this with
  | Returns (a, _) => Returns a
  | AssertionFailed => AssertionFailed
  end.

Definition after {A : Type} (m : Method A) (this : SO2Group)
  : Outcome SO2Group :=
  match m this with
  | Returns (_, this') => Returns this'
  | AssertionFailed => AssertionFailed
  end.

Definition self : Method SO2Group := fun this => Returns (this, this).

Definition unit_complex : Method Matrix21 :=
  fun this => Returns (unit_complex_ this, this).

Definition unit_complex_nonconst_x_assign (v : Scalar) : Method unit :=
  fun this => Returns (tt, Build (Vec v (y (unit_complex_ this)))).

Definition unit_complex_nonconst_y_assign (v : Scalar) : Method unit :=
  fun this => Returns (tt, Build (Vec (x (unit_complex_ this)) v)).

Inductive ConstRef : Type :=
| distinct (o : SO2Group)
| receiver.

Definition deref (r : ConstRef) : Method SO2Group :=
  match r with
  | distinct o => ret o
  | receiver => self
  end.

Section Group.
Context {K : SophusConstants}.

(** [fastMultiply(other)] *)
Definition fastMultiply (other : ConstRef) : Method unit :=
  c <- unit_complex ;;
  let lhs_real := x c in
  let lhs_imag := y c in
  o <- deref other ;;
  let rhs_real := x (unit_complex_ o) in
  let rhs_imag := y (unit_complex_ o) in
  unit_complex_nonconst_x_assign (lhs_real * rhs_real - lhs_imag * rhs_imag) ;;
  o <- deref other ;;
  let rhs_real := x (unit_complex_ o) in
  let rhs_imag := y (unit_complex_ o) in
  unit_complex_nonconst_y_assign (lhs_real * rhs_imag + lhs_imag * rhs_real).

(** [normalize()]; [length > epsilon] is false when either side is not a
    number. *)
Definition normalize : Method unit :=
  c <- unit_complex ;;
  let length := sqrt (x c * x c + y c * y c) in
  assert (epsilon <? length) ;;
  c <- unit_complex ;;
  unit_complex_nonconst_x_assign (x c / length) ;;
  c <- unit_complex ;;
  unit_complex_nonconst_y_assign (y c / length).

Definition construct (init : SO2Group) (body : Method unit)
  : Outcome SO2Group := after body init.

(** [SO2Group()] *)
Definition SO2Group_default : SO2Group := Build (Vec 1 0).

(** [SO2Group(const SO2GroupBase<OtherDerived>& other)] *)
Definition SO2Group_copy (other : SO2Group) : SO2Group :=
  Build (unit_complex_ other).

(** [SO2Group(const Scalar& real, const Scalar& imag)] *)
Definition SO2Group_from_pair (real imag : Scalar) : Outcome SO2Group :=
  construct (Build (Vec real imag))
            (assert (epsilon <? real * real + imag * imag) ;;
             normalize).

(** [SO2Group(const ComplexType& complex)] *)
Definition SO2Group_from_vector (complex : Matrix21) : Outcome SO2Group :=
  construct (Build complex)
            (assert (epsilon <? x complex * x complex
                                + y complex * y complex) ;;
             normalize).

(** [inverse()] *)
Definition inverse : Method SO2Group :=
  c <- unit_complex ;;
  c' <- unit_complex ;;
  lift (SO2Group_from_pair (x c) (- y c')).

(** [matrix()] *)
Definition matrix : Method Matrix22 :=
  c <- unit_complex ;;
  let real := x c in
  let imag := y c in
  ret (Mat real (- imag) imag real).

(** static [log(other)], where the C standard fixes its value. *)
Definition log (other : SO2Group) : option Scalar :=
  atan2 (y (unit_complex_ other)) (x (unit_complex_ other)).

(** [operator*=(other)] *)
Definition operator_mul_assign (other : ConstRef) : Method unit :=
  fastMultiply other ;;
  normalize.

(** [operator*(other)] *)
Definition operator_mul (other : ConstRef) : Method SO2Group :=
  this <- self ;;
  o <- deref other ;;
  lift (construct (SO2Group_copy this) (operator_mul_assign (distinct o))).

(** [operator*(p)] *)
Definition operator_mul_point (p : Matrix21) : Method Matrix21 :=
  c <- unit_complex ;;
  let real := x c in
  let imag := y c in
  ret (Vec (real * x p - imag * y p) (imag * x p + real * y p)).

End Group.

(** The conjugate of the stored pair. *)
Definition conjugate (A : SO2Group) : SO2Group :=
  Build (Vec (x (unit_complex_ A)) (- y (unit_complex_ A))).


(** Sample data: a threshold of 1e-10 and the pair (0.6, 0.8). *)
Definition sample_constants : SophusConstants := {| epsilon := 1e-10 |}.

Definition sample_rotation : SO2Group := Build (Vec 0.6 0.8).



End SophusDouble.

(** * Facts about the mathematical functions *)
Module CmathFacts.
Import Cmath.










End CmathFacts.

(** * Facts about the group operations *)
Module SophusFacts.
Import Sophus.

Lemma Rgtb_true_iff (a b : R) : Rgtb a b = true <-> a > b.
Proof. unfold Rgtb. destruct (Rgt_dec a b); split; intros; lra || easy. Qed.

Lemma Rgtb_false_iff (a b : R) : Rgtb a b = false <-> a <= b.
Proof. unfold Rgtb. destruct (Rgt_dec a b); split; intros; lra || easy. Qed.

Lemma Rltb_true_iff (a b : R) : Rltb a b = true <-> a < b.
Proof. unfold Rltb. destruct (Rlt_dec a b); split; intros; lra || easy. Qed.

(** Unfolds the monadic plumbing of a member function. *)
Ltac run :=
  cbv beta iota delta
    [bind ret Method_Monad Outcome_Monad assert lift call after self
     unit_complex unit_complex_nonconst_assign unit_complex_nonconst_x_assign
     unit_complex_nonconst_y_assign deref construct
     unit_complex_ Eigen.x Eigen.y].

Section WithConstants.
Context {K : SophusConstants}.


Lemma normalize_run (a b : Scalar) :
  normalize (Build (Eigen.Vec a b)) =
  if Rgtb (Eigen.abs (Eigen.Vec a b)) epsilon
  then Returns (tt, Build (Eigen.Vec (a / Eigen.abs (Eigen.Vec a b))
                                     (b / Eigen.abs (Eigen.Vec a b))))
  else AssertionFailed.
Proof.
  unfold normalize, Eigen.abs. run.
  destruct (Rgtb (sqrt (a * a + b * b)) epsilon); reflexivity.
Qed.



(** On a pair of unit length [normalize] changes nothing. *)
Lemma normalize_unit (this : SO2Group) :
  epsilon < 1 -> unit_length this -> normalize this = Returns (tt, this).
Proof.
  intros Heps Hu. destruct this as [[a b]]. rewrite normalize_run.
  unfold unit_length, Eigen.abs in *. cbn in *.
  rewrite Hu, sqrt_1.
  destruct (Rgtb 1 epsilon) eqn:Hgt.
  - now rewrite !Rdiv_1_r.
  - apply Rgtb_false_iff in Hgt. lra.
Qed.

Lemma from_vector_run (a b : Scalar) :
  SO2Group_from_vector (Eigen.Vec a b) =
  if Rgtb (a * a + b * b) epsilon
  then after normalize (Build (Eigen.Vec a b))
  else AssertionFailed.
Proof.
  unfold SO2Group_from_vector. run.
  destruct (Rgtb (a * a + b * b) epsilon); reflexivity.
Qed.

Lemma from_pair_run (real imag : Scalar) :
  SO2Group_from_pair real imag =
  SO2Group_from_vector (Eigen.Vec real imag).
Proof. reflexivity. Qed.



(** On a pair of unit length they return the pair itself. *)
Lemma from_vector_unit (a b : Scalar) :
  epsilon < 1 -> a * a + b * b = 1 ->
  SO2Group_from_vector (Eigen.Vec a b) = Returns (Build (Eigen.Vec a b)).
Proof.
  intros Heps Hu. rewrite from_vector_run, Hu.
  destruct (Rgtb 1 epsilon) eqn:Hgt.
  - unfold after. now rewrite normalize_unit.
  - apply Rgtb_false_iff in Hgt. lra.
Qed.

(** [fastMultiply] with another object: the complex product. *)
Lemma fastMultiply_distinct (a b c d : Scalar) :
  fastMultiply (distinct (Build (Eigen.Vec c d))) (Build (Eigen.Vec a b)) =
  Returns (tt, Build (Eigen.Vec (a * c - b * d) (a * d + b * c))).
Proof. reflexivity. Qed.

(** [fastMultiply] with the receiver itself: the imaginary part is
    computed from the real part already overwritten. *)
Lemma fastMultiply_receiver (a b : Scalar) :
  fastMultiply receiver (Build (Eigen.Vec a b)) =
  Returns (tt, Build (Eigen.Vec (a * a - b * b)
                                (a * b + b * (a * a - b * b)))).
Proof. reflexivity. Qed.


Lemma operator_mul_assign_run (other : ConstRef) (this : SO2Group) :
  operator_mul_assign other this =
  match fastMultiply other this with
  | Returns (_, this') => normalize this'
  | AssertionFailed => AssertionFailed
  end.
Proof. reflexivity. Qed.

(** The product of two pairs of unit length has unit length. *)
Lemma product_unit (a b c d : R) :
  a * a + b * b = 1 -> c * c + d * d = 1 ->
  (a * c - b * d) * (a * c - b * d) + (a * d + b * c) * (a * d + b * c) = 1.
Proof. intros Ha Hc. nra. Qed.

(** On rotations, in-place multiplication by another object returns and
    stores the complex product. *)
Lemma operator_mul_assign_unit (a b c d : Scalar) :
  epsilon < 1 -> a * a + b * b = 1 -> c * c + d * d = 1 ->
  operator_mul_assign (distinct (Build (Eigen.Vec c d)))
                      (Build (Eigen.Vec a b)) =
  Returns (tt, Build (Eigen.Vec (a * c - b * d) (a * d + b * c))).
Proof.
  intros Heps Ha Hc.
  rewrite operator_mul_assign_run, fastMultiply_distinct.
  apply normalize_unit; [assumption|].
  unfold unit_length. cbn. now apply product_unit.
Qed.

Lemma operator_mul_run (other : ConstRef) (this : SO2Group) :
  operator_mul other this =
  match operator_mul_assign
          (distinct (match other with distinct o => o | receiver => this end))
          (SO2Group_copy this) with
  | Returns (_, result) => Returns (result, this)
  | AssertionFailed => AssertionFailed
  end.
Proof.
  destruct other as [o|]; unfold operator_mul; run;
    destruct (operator_mul_assign _ _) as [[u r]|]; reflexivity.
Qed.

(** On rotations, the product returns the complex product. *)
Lemma operator_mul_unit (a b c d : Scalar) :
  epsilon < 1 -> a * a + b * b = 1 -> c * c + d * d = 1 ->
  call (operator_mul (distinct (Build (Eigen.Vec c d))))
       (Build (Eigen.Vec a b)) =
  Returns (Build (Eigen.Vec (a * c - b * d) (a * d + b * c))).
Proof.
  intros Heps Ha Hc. unfold call.
  rewrite operator_mul_run. unfold SO2Group_copy. cbn [unit_complex_].
  now rewrite operator_mul_assign_unit.
Qed.

(** On a rotation, [inverse] returns the conjugate pair. *)
Lemma inverse_unit (a b : Scalar) :
  epsilon < 1 -> a * a + b * b = 1 ->
  inverse (Build (Eigen.Vec a b)) =
  Returns (Build (Eigen.Vec a (- b)), Build (Eigen.Vec a b)).
Proof.
  intros Heps Hu. unfold inverse. run.
  rewrite from_pair_run, from_vector_unit; [reflexivity|assumption|nra].
Qed.

Lemma call_inverse_unit (a b : Scalar) :
  epsilon < 1 -> a * a + b * b = 1 ->
  call inverse (Build (Eigen.Vec a b)) = Returns (Build (Eigen.Vec a (- b))).
Proof.
  intros Heps Hu. unfold call. now rewrite inverse_unit.
Qed.

(** Such a matrix has equal diagonal entries, opposite off-diagonal
    entries and a first column of unit length. *)
Lemma rotation_matrix_shape (R : Eigen.Matrix22) :
  rotation_matrix R ->
  Eigen.m11 R = Eigen.m00 R /\ Eigen.m01 R = - Eigen.m10 R /\
  Eigen.m00 R * Eigen.m00 R + Eigen.m10 R * Eigen.m10 R = 1.
Proof.
  destruct R as [a b c d]. unfold rotation_matrix, Eigen.mul, Eigen.transpose,
    Eigen.Identity, Eigen.determinant. cbn.
  intros [[= H1 H2 H3 H4] Hdet].
  assert ((a - d) * (a - d) + (b + c) * (b + c) = 0) as Hz by nra.
  destruct (Rplus_sqr_eq_0 (a - d) (b + c) Hz) as [Had Hbc].
  repeat split; nra.
Qed.

Lemma from_matrix_rotation (R : Eigen.Matrix22) :
  rotation_matrix R ->
  SO2Group_from_matrix R = Build (Eigen.Vec (Eigen.m00 R) (Eigen.m10 R)).
Proof.
  intros HR. destruct (rotation_matrix_shape R HR) as (H11 & H01 & _).
  unfold SO2Group_from_matrix. rewrite H11, H01. do 2 f_equal; lra.
Qed.

Lemma from_matrix_unit (R : Eigen.Matrix22) :
  rotation_matrix R -> unit_length (SO2Group_from_matrix R).
Proof.
  intros HR. rewrite (from_matrix_rotation R HR).
  now destruct (rotation_matrix_shape R HR) as (_ & _ & Hu).
Qed.

(** ** The exponential and the logarithm *)

Lemma exp_run (theta : Scalar) :
  epsilon < 1 ->
  exp theta = Returns (Build (Eigen.Vec (cos theta) (sin theta))).
Proof.
  intros Heps. unfold exp. apply from_vector_unit; [assumption|].
  pose proof (sin2_cos2 theta) as H. unfold Rsqr in H. lra.
Qed.



(** ** Inverse, product and action *)

(** In exact real arithmetic, on a pair [A] of unit length [inverse]
    returns the conjugate pair (real, -imag) and does not fail;
    [A * A.inverse()] is the identity and [A.inverse().inverse()] is
    [A]. *)
Lemma inverse_conjugate_exact (A : SO2Group) :
  epsilon < 1 -> unit_length A ->
  call inverse A =
    Returns (Build (Eigen.Vec (Eigen.x (unit_complex_ A))
                              (- Eigen.y (unit_complex_ A)))) /\
  (Ainv <- call inverse A ;; call (operator_mul (distinct Ainv)) A)
    = Returns SO2Group_default /\
  (Ainv <- call inverse A ;; call inverse Ainv) = Returns A.
Proof.
  intros Heps Hu. destruct A as [[a b]].
  unfold unit_length in Hu. cbn in Hu.
  rewrite !call_inverse_unit by assumption.
  cbn [bind Outcome_Monad unit_complex_ Eigen.x Eigen.y].
  split; [reflexivity|split].
  - rewrite operator_mul_unit by (assumption || nra).
    unfold SO2Group_default. do 3 f_equal; nra.
  - rewrite call_inverse_unit by (assumption || nra).
    now rewrite Ropp_involutive.
Qed.


Lemma operator_mul_point_run (p : Eigen.Matrix21) (A : SO2Group) :
  operator_mul_point p A =
  Returns (Eigen.Vec (Eigen.x (unit_complex_ A) * Eigen.x p
                      - Eigen.y (unit_complex_ A) * Eigen.y p)
                     (Eigen.y (unit_complex_ A) * Eigen.x p
                      + Eigen.x (unit_complex_ A) * Eigen.y p), A).
Proof. reflexivity. Qed.


(** ** The Lie algebra *)

(** C7: [hat theta] is the matrix with rows (0, -theta) and (theta, 0);
    [vee (hat theta)] is [theta]; [hat (vee M)] is [M] for every [M]
    with zero diagonal and [M(0,1) = - M(1,0)]; the check of [vee]
    passes on every [hat theta] and on [generator]. *)
Theorem hat_vee_inverse :
  0 < epsilon ->
  (forall theta : Scalar, hat theta = Eigen.Mat 0 (- theta) theta 0) /\
  (forall theta : Scalar, vee (hat theta) = Returns theta) /\
  (forall M : Eigen.Matrix22,
      Eigen.m00 M = 0 -> Eigen.m11 M = 0 -> Eigen.m01 M = - Eigen.m10 M ->
      (theta <- vee M ;; ret (hat theta)) = Returns M) /\
  vee generator = Returns 1.
Proof.
  intros Heps.
  assert (forall M : Eigen.Matrix22,
             Eigen.m01 M = - Eigen.m10 M -> vee M = Returns (Eigen.m10 M))
    as Hvee.
  { intros M HM. unfold vee, Cmath.fabs.
    replace (Eigen.m10 M + Eigen.m01 M) with 0 by lra.
    rewrite Rabs_R0.
    destruct (Rltb 0 epsilon) eqn:Hlt; [reflexivity|].
    apply Rltb_true_iff in Heps. congruence. }
  split; [|split; [|split]].
  - reflexivity.
  - intros theta. now rewrite Hvee.
  - intros [a b c d]. cbn. intros -> -> ->.
    rewrite Hvee by reflexivity. reflexivity.
  - unfold generator. now rewrite Hvee.
Qed.

(** ** Contract checks *)


Lemma from_vector_fails_iff (a b : Scalar) :
  SO2Group_from_vector (Eigen.Vec a b) = AssertionFailed <->
  a * a + b * b <= epsilon \/ sqrt (a * a + b * b) <= epsilon.
Proof.
  rewrite from_vector_run. unfold after. rewrite normalize_run.
  unfold Eigen.abs. cbn [Eigen.x Eigen.y].
  rewrite <- !Rgtb_false_iff.
  destruct (Rgtb (a * a + b * b) epsilon),
    (Rgtb (sqrt (a * a + b * b)) epsilon); split; intros H;
    try reflexivity; try discriminate; auto; destruct H; discriminate.
Qed.


(** C9: the constructor from a matrix [R] stores half the trace and half
    the difference of the off-diagonal entries, without normalising and
    without a check; when [R] is orthogonal with determinant one the
    stored pair has unit length, and a matrix that is not is accepted
    as it is. *)
Theorem from_matrix_contract :
  (forall R : Eigen.Matrix22,
      unit_complex_ (SO2Group_from_matrix R) =
      Eigen.Vec (0.5 * (Eigen.m00 R + Eigen.m11 R))
                (0.5 * (Eigen.m10 R - Eigen.m01 R))) /\
  (forall R : Eigen.Matrix22,
      rotation_matrix R -> unit_length (SO2Group_from_matrix R)) /\
  (~ rotation_matrix (Eigen.Mat 2 0 0 2) /\
   SO2Group_from_matrix (Eigen.Mat 2 0 0 2) = Build (Eigen.Vec 2 0) /\
   ~ unit_length (SO2Group_from_matrix (Eigen.Mat 2 0 0 2))).
Proof.
  split; [reflexivity|]. split; [apply from_matrix_unit|].
  split; [|split].
  - unfold rotation_matrix, Eigen.determinant. cbn. intros [_ H]. lra.
  - unfold SO2Group_from_matrix. cbn. do 2 f_equal; lra.
  - unfold unit_length, SO2Group_from_matrix. cbn. lra.
Qed.

(** ** Frame: what the read-only operations leave alone *)

Lemma lift_frame {A : Type} (o : Outcome A) (this this' : SO2Group) (r : A) :
  lift o this = Returns (r, this') -> this' = this.
Proof. unfold lift. destruct o; congruence. Qed.

Lemma inverse_frame (A A' Ainv : SO2Group) :
  inverse A = Returns (Ainv, A') -> A' = A.
Proof. unfold inverse. run. apply lift_frame. Qed.

Lemma cast_frame (K' : SophusConstants) (A A' r : SO2Group) :
  cast K' A = Returns (r, A') -> A' = A.
Proof. unfold cast. run. apply lift_frame. Qed.

Lemma operator_mul_frame (other : ConstRef) (A A' AB : SO2Group) :
  operator_mul other A = Returns (AB, A') -> A' = A.
Proof.
  rewrite operator_mul_run.
  destruct (operator_mul_assign _ _) as [[u r]|]; congruence.
Qed.

(** C10: [inverse], [matrix], [log], [cast] and the product [operator*]
    leave the stored pair of the receiver as it was; the product works
    on a copy of the receiver.  On a rotation each of them returns. *)
Theorem const_methods_frame (A : SO2Group) :
  epsilon < 1 -> unit_length A ->
  (forall Ainv A', inverse A = Returns (Ainv, A') -> A' = A) /\
  (forall M A', matrix A = Returns (M, A') -> A' = A) /\
  (forall theta A', log_member A = Returns (theta, A') -> A' = A) /\
  (forall K' r A', cast K' A = Returns (r, A') -> A' = A) /\
  (forall other AB A', operator_mul other A = Returns (AB, A') -> A' = A) /\
  (forall other,
      operator_mul other A =
      match operator_mul_assign
              (distinct (match other with distinct o => o | receiver => A end))
              (SO2Group_copy A) with
      | Returns (_, result) => Returns (result, A)
      | AssertionFailed => AssertionFailed
      end) /\
  after inverse A = Returns A /\
  after matrix A = Returns A /\
  after log_member A = Returns A /\
  after (cast K) A = Returns A /\
  (forall B, unit_length B -> after (operator_mul (distinct B)) A = Returns A) /\
  after (operator_mul receiver) A = Returns A.
Proof.
  intros Heps Hu.
  split; [intros ? ?; apply inverse_frame|].
  split; [intros ? ?; unfold matrix; run; congruence|].
  split; [intros ? ?; unfold log_member; run; congruence|].
  split; [intros ? ? ?; apply cast_frame|].
  split; [intros ? ? ?; apply operator_mul_frame|].
  split; [intros ?; apply operator_mul_run|].
  destruct A as [[a b]]. unfold unit_length in Hu. cbn in Hu.
  split; [unfold after; now rewrite inverse_unit|].
  split; [reflexivity|]. split; [reflexivity|].
  split.
  { unfold cast, Eigen.cast. run. now rewrite from_vector_unit. }
  split.
  - intros [[c d]] HB. unfold unit_length in HB. cbn in HB.
    unfold after. rewrite operator_mul_run. unfold SO2Group_copy.
    cbn [unit_complex_]. now rewrite operator_mul_assign_unit.
  - unfold after. rewrite operator_mul_run. unfold SO2Group_copy.
    cbn [unit_complex_]. now rewrite operator_mul_assign_unit.
Qed.

End WithConstants.

(** ** The unit-length invariant *)


Section Invariant.
Context {K : SophusConstants}.






End Invariant.

(** ** Sample data *)

Lemma sample_epsilon : 0 < @epsilon sample_constants < 1.
Proof. unfold sample_constants. cbn. lra. Defined.

Lemma sample_rotation_unit : unit_length sample_rotation.
Proof. unfold unit_length, sample_rotation. cbn. lra. Defined.

(** ** Worked examples *)

Section Examples.
Let K : SophusConstants := sample_constants.
Existing Instance K.

Lemma quarter_turn : exp (PI / 2) = Returns (Build (Eigen.Vec 0 1)).
Proof.
  rewrite exp_run by apply sample_epsilon. now rewrite cos_PI2, sin_PI2.
Qed.

Example quarter_turn_from_angle :
  SO2Group_from_angle (PI / 2) = Returns (Build (Eigen.Vec 0 1)).
Proof. unfold SO2Group_from_angle. now rewrite quarter_turn. Qed.

Example quarter_turn_act :
  call (operator_mul_point (Eigen.Vec 1 0)) (Build (Eigen.Vec 0 1))
  = Returns (Eigen.Vec 0 1).
Proof.
  unfold call. rewrite operator_mul_point_run. cbn. do 2 f_equal; lra.
Qed.

Example quarter_turn_matrix :
  call matrix (Build (Eigen.Vec 0 1)) = Returns (Eigen.Mat 0 (- (1)) 1 0).
Proof. reflexivity. Qed.

Example quarter_turn_twice :
  call (operator_mul (distinct (Build (Eigen.Vec 0 1))))
       (Build (Eigen.Vec 0 1))
  = Returns (Build (Eigen.Vec (- (1)) 0)).
Proof.
  rewrite operator_mul_unit by (apply sample_epsilon || lra).
  do 3 f_equal; lra.
Qed.

(** [A * A] passes the receiver as [other]; the product works on a copy,
    so the result is the same. *)
Example quarter_turn_twice_receiver :
  call (operator_mul receiver) (Build (Eigen.Vec 0 1))
  = Returns (Build (Eigen.Vec (- (1)) 0)).
Proof.
  unfold call. rewrite operator_mul_run. unfold SO2Group_copy.
  cbn [unit_complex_].
  rewrite operator_mul_assign_unit by (apply sample_epsilon || lra).
  do 3 f_equal; lra.
Qed.

(** [A *= A] reads [rhs_real] from the receiver after its real part has
    been overwritten: the quarter turn becomes (-1, -1) before it is
    normalised. *)
Example quarter_turn_squared_in_place :
  after (operator_mul_assign receiver) (Build (Eigen.Vec 0 1))
  = Returns (Build (Eigen.Vec (- (1) / sqrt 2) (- (1) / sqrt 2))).
Proof.
  unfold after.
  rewrite operator_mul_assign_run, fastMultiply_receiver, normalize_run.
  unfold Eigen.abs. cbn [Eigen.x Eigen.y].
  replace ((0 * 0 - 1 * 1) * (0 * 0 - 1 * 1)
           + (0 * 1 + 1 * (0 * 0 - 1 * 1)) * (0 * 1 + 1 * (0 * 0 - 1 * 1)))
    with 2 by ring.
  replace (0 * 0 - 1 * 1) with (- (1)) by ring.
  replace (0 * 1 + 1 * - (1)) with (- (1)) by ring.
  assert (Rgtb (sqrt 2) epsilon = true) as ->; [|reflexivity].
  apply Rgtb_true_iff.
  assert (1 <= sqrt 2) by (rewrite <- sqrt_1 at 1; apply sqrt_le_1; lra).
  pose proof sample_epsilon. unfold K in *. lra.
Qed.

Example lieBracket_zero (theta1 theta2 : Scalar) :
  lieBracket theta1 theta2 = 0.
Proof. reflexivity. Qed.

Example Adj_one (A : SO2Group) : call Adj A = Returns 1.
Proof. reflexivity. Qed.

End Examples.

(** ** The theorems at the sample data *)





Lemma hat_vee_inverse_witness :
  0 < @epsilon sample_constants /\
  @vee sample_constants (hat 2) = Returns 2 /\
  @vee sample_constants generator = Returns 1.
Proof.
  assert (0 < @epsilon sample_constants) as Heps by apply sample_epsilon.
  pose proof (@hat_vee_inverse sample_constants Heps) as H.
  split; [exact Heps|]. split; apply H.
Defined.


Lemma from_matrix_contract_witness :
  rotation_matrix (Eigen.Mat 0 (- 1) 1 0) /\
  unit_length (SO2Group_from_matrix (Eigen.Mat 0 (- 1) 1 0)).
Proof.
  assert (rotation_matrix (Eigen.Mat 0 (- 1) 1 0)) as HR.
  { unfold rotation_matrix, Eigen.mul, Eigen.transpose, Eigen.Identity,
      Eigen.determinant. cbn. split; [f_equal|]; lra. }
  split; [exact HR|].
  apply from_matrix_contract. exact HR.
Defined.

Lemma const_methods_frame_witness :
  @epsilon sample_constants < 1 /\
  unit_length sample_rotation /\
  after (@inverse sample_constants) sample_rotation = Returns sample_rotation /\
  after (@operator_mul sample_constants receiver) sample_rotation
  = Returns sample_rotation.
Proof.
  assert (@epsilon sample_constants < 1) as Heps by apply sample_epsilon.
  pose proof (@const_methods_frame sample_constants sample_rotation Heps
                sample_rotation_unit) as H.
  split; [exact Heps|]. split; [exact sample_rotation_unit|].
  split; apply H.
Defined.

End SophusFacts.

(** * Further properties of the group operations *)
Module SophusExtra.
Import Cmath CmathFacts Sophus SophusFacts.

(** ** Thresholds *)

(** The square root is above a threshold of at most one as soon as its
    argument is. *)
Lemma sqrt_above_threshold (s e : R) :
  0 <= e <= 1 -> s > e -> sqrt s > e.
Proof.
  intros [He0 He1] Hs.
  rewrite <- (sqrt_square e He0).
  apply sqrt_lt_1; nra.
Qed.

Section Extra.
Context {K : SophusConstants}.

(** ** The matrix form *)

(** X1: [matrix()] of [A] is orthogonal with determinant one exactly when the
    stored pair of [A] has unit length. *)
Theorem matrix_rotation_iff (A : SO2Group) :
  exists M, call matrix A = Returns M /\
            (rotation_matrix M <-> unit_length A).
Proof.
  destruct A as [[a b]]. eexists. split; [reflexivity|].
  unfold rotation_matrix, unit_length, Eigen.mul, Eigen.transpose,
    Eigen.Identity, Eigen.determinant. cbn.
  split.
  - intros [_ Hdet]. lra.
  - intros Hu. split; [f_equal|]; lra.
Qed.

(** X2: the constructor from a matrix undoes [matrix()] on every stored
    pair, and [matrix()] undoes the constructor on every rotation
    matrix. *)
Theorem matrix_roundtrip :
  (forall A : SO2Group,
      (M <- call matrix A ;; ret (SO2Group_from_matrix M)) = Returns A) /\
  (forall R : Eigen.Matrix22,
      rotation_matrix R -> call matrix (SO2Group_from_matrix R) = Returns R).
Proof.
  split.
  - intros [[a b]]. cbn. unfold SO2Group_from_matrix. cbn.
    do 3 f_equal; lra.
  - intros R HR. rewrite (from_matrix_rotation R HR).
    destruct (rotation_matrix_shape R HR) as (H11 & H01 & _).
    destruct R as [r00 r01 r10 r11]. cbn in *. subst.
    reflexivity.
Qed.

(** X3: the action on a point is the product of [matrix()] with the point. *)
Theorem act_is_matrix_product (A : SO2Group) (p : Eigen.Matrix21) :
  (M <- call matrix A ;; ret (Eigen.mulvec M p))
  = call (operator_mul_point p) A.
Proof.
  destruct A as [[a b]], p as [px py]. cbn. unfold Eigen.mulvec. cbn.
  do 2 f_equal; ring.
Qed.

(** ** The exponential *)

(** X8: [exp] of the opposite angle is the inverse rotation. *)
Theorem exp_opp (theta : Scalar) :
  epsilon < 1 ->
  exp (- theta) = (A <- exp theta ;; call inverse A).
Proof.
  intros Heps. rewrite !exp_run by assumption.
  cbn [bind Outcome_Monad].
  rewrite call_inverse_unit; [|assumption|].
  - now rewrite cos_neg, sin_neg.
  - pose proof (sin2_cos2 theta) as H. unfold Rsqr in H. lra.
Qed.

(** ** The normalising constructors *)

(** X11: for a threshold between zero and one the assertion inside
    [normalize] never stops the constructor from a pair: it returns
    exactly when the squared modulus of the pair is above the
    threshold. *)
Theorem from_pair_returns_iff (real imag : Scalar) :
  0 <= epsilon <= 1 ->
  (exists A, SO2Group_from_pair real imag = Returns A) <->
  real * real + imag * imag > epsilon.
Proof.
  intros Heps.
  pose proof (from_vector_fails_iff real imag) as Hfail.
  rewrite <- from_pair_run in Hfail. split.
  - intros [A HA].
    destruct (Rgt_dec (real * real + imag * imag) epsilon) as [Hgt|Hle];
      [exact Hgt|].
    assert (SO2Group_from_pair real imag = AssertionFailed) as Hf
        by (apply Hfail; left; lra).
    congruence.
  - intros Hgt.
    destruct (SO2Group_from_pair real imag) as [A|] eqn:HA;
      [now exists A|].
    pose proof (sqrt_above_threshold _ _ Heps Hgt).
    destruct (proj1 Hfail eq_refl); lra.
Qed.

(** X12: the constructor from a pair returns the pair divided by its
    modulus. *)
Theorem from_pair_normalised (real imag : Scalar) :
  0 <= epsilon < 1 ->
  real * real + imag * imag > epsilon ->
  SO2Group_from_pair real imag
  = Returns (Build (Eigen.Vec (real / sqrt (real * real + imag * imag))
                              (imag / sqrt (real * real + imag * imag)))).
Proof.
  intros Heps Hgt.
  assert (sqrt (real * real + imag * imag) > epsilon) as Hn
      by (apply sqrt_above_threshold; lra).
  rewrite from_pair_run, from_vector_run.
  apply Rgtb_true_iff in Hgt. rewrite Hgt.
  unfold after. rewrite normalize_run. unfold Eigen.abs.
  cbn [Eigen.x Eigen.y].
  apply Rgtb_true_iff in Hn. now rewrite Hn.
Qed.

(** ** Identity, inverse and aliasing *)

(** X15: multiplying by the identity, on either side, is [normalize] of
    the other factor: it returns the normalised pair or stops where
    [normalize] stops. *)
Theorem mul_identity (A : SO2Group) :
  call (operator_mul (distinct SO2Group_default)) A = after normalize A /\
  call (operator_mul (distinct A)) SO2Group_default = after normalize A.
Proof.
  destruct A as [[a b]]. unfold Scalar in *. split.
  - unfold call, after. rewrite operator_mul_run, operator_mul_assign_run.
    unfold SO2Group_copy, SO2Group_default. cbn [unit_complex_].
    rewrite fastMultiply_distinct.
    replace (a * 1 - b * 0) with a by ring.
    replace (a * 0 + b * 1) with b by ring.
    destruct (normalize _) as [[u r]|]; reflexivity.
  - unfold call, after. rewrite operator_mul_run, operator_mul_assign_run.
    unfold SO2Group_copy, SO2Group_default. cbn [unit_complex_].
    rewrite fastMultiply_distinct.
    replace (1 * a - 0 * b) with a by ring.
    replace (1 * b + 0 * a) with b by ring.
    destruct (normalize _) as [[u r]|]; reflexivity.
Qed.

(** X16: [fastMultiply] of an object with itself reads the real part it has
    just overwritten: it gives the complex square only when the
    imaginary part is zero or the real part of the square equals the old
    real part.  The product [operator*] works on a copy and is not
    affected. *)
Theorem fastMultiply_receiver_iff (A : SO2Group) :
  (fastMultiply receiver A = fastMultiply (distinct A) A <->
   Eigen.y (unit_complex_ A) = 0 \/
   Eigen.x (unit_complex_ A) * Eigen.x (unit_complex_ A)
   - Eigen.y (unit_complex_ A) * Eigen.y (unit_complex_ A)
   = Eigen.x (unit_complex_ A)) /\
  operator_mul receiver A = operator_mul (distinct A) A.
Proof.
  split; [|now rewrite !operator_mul_run].
  destruct A as [[a b]].
  rewrite fastMultiply_receiver, fastMultiply_distinct.
  cbn [unit_complex_ Eigen.x Eigen.y]. split.
  - intros [= Hy].
    assert (b * (a * a - b * b - a) = 0) as Hz by lra.
    destruct (Rmult_integral _ _ Hz); [left|right]; lra.
  - intros [Hb | Ha]; do 4 f_equal.
    + rewrite Hb. ring.
    + rewrite Ha. ring.
Qed.

(** In exact real arithmetic [inverse] returns the conjugate of the pair
    the constructor makes of the receiver's pair. *)
Lemma inverse_conjugate_constructed (A : SO2Group) :
  call inverse A
  = (A' <- SO2Group_from_vector (unit_complex_ A) ;;
     ret (Build (Eigen.Vec (Eigen.x (unit_complex_ A'))
                           (- Eigen.y (unit_complex_ A'))))).
Proof.
  destruct A as [[a b]]. unfold call, inverse. run.
  rewrite from_pair_run, !from_vector_run. unfold after.
  rewrite !normalize_run. unfold Eigen.abs. cbn [Eigen.x Eigen.y].
  replace (a * a + - b * - b) with (a * a + b * b) by ring.
  destruct (Rgtb (a * a + b * b) epsilon); [|reflexivity].
  destruct (Rgtb (sqrt (a * a + b * b)) epsilon); [|reflexivity].
  cbn. do 3 f_equal. unfold Rdiv. ring.
Qed.

Lemma matrix_inverse_transpose_exact (A : SO2Group) :
  (Ainv <- call inverse A ;; call matrix Ainv)
  = (A' <- SO2Group_from_vector (unit_complex_ A) ;;
     M <- call matrix A' ;; ret (Eigen.transpose M)).
Proof.
  rewrite inverse_conjugate_constructed.
  destruct (SO2Group_from_vector (unit_complex_ A)) as [[[a' b']]|];
    [|reflexivity].
  cbn. unfold Eigen.transpose. cbn. now rewrite Ropp_involutive.
Qed.

(** ** The Lie algebra *)

(** X20: [hat] inverts [vee] only on matrices of the skew pattern, but [vee]
    accepts more: its check tolerates an error below [epsilon] in the
    off-diagonal entries and does not look at the diagonal. *)
Theorem vee_accepts_more :
  0 < epsilon ->
  (forall (M : Eigen.Matrix22) (theta : Scalar),
      vee M = Returns theta ->
      (hat theta = M <->
       Eigen.m00 M = 0 /\ Eigen.m11 M = 0 /\ Eigen.m01 M = - Eigen.m10 M)) /\
  (forall theta delta d0 d1 : Scalar,
      Rabs delta < epsilon ->
      vee (Eigen.Mat d0 (delta - theta) theta d1) = Returns theta).
Proof.
  intros Heps. split.
  - intros [a b c d] theta. unfold vee. cbn.
    destruct (Rltb _ _); [|discriminate]. intros [= <-].
    unfold hat. split.
    + intros [= <- <- <-]. auto.
    + intros (-> & -> & ->). reflexivity.
  - intros theta delta d0 d1 Hdelta. unfold vee, fabs. cbn.
    unfold Scalar in *.
    replace (theta + (delta - theta)) with delta by ring.
    apply Rltb_true_iff in Hdelta. now rewrite Hdelta.
Qed.

(** X22: the commutator of two matrices [hat theta1] and [hat theta2] is
    [hat] of their Lie bracket. *)
Theorem lieBracket_commutator (theta1 theta2 : Scalar) :
  Eigen.sub (Eigen.mul (hat theta1) (hat theta2))
            (Eigen.mul (hat theta2) (hat theta1))
  = hat (lieBracket theta1 theta2).
Proof.
  unfold Eigen.sub, Eigen.mul, hat, lieBracket. cbn.
  unfold Scalar in *. f_equal; ring.
Qed.

End Extra.

(** ** The further properties at the sample data *)

Lemma sample_quarter_turn_matrix : rotation_matrix (Eigen.Mat 0 (- (1)) 1 0).
Proof.
  unfold rotation_matrix, Eigen.mul, Eigen.transpose, Eigen.Identity,
    Eigen.determinant. cbn. split; [f_equal|]; lra.
Defined.

Lemma sample_epsilon_lt_1 : @epsilon sample_constants < 1.
Proof. apply sample_epsilon. Defined.

Lemma sample_epsilon_ge_0 : 0 <= @epsilon sample_constants < 1.
Proof. pose proof sample_epsilon. lra. Defined.

Lemma matrix_rotation_iff_witness :
  unit_length sample_rotation /\
  exists M, call matrix sample_rotation = Returns M /\ rotation_matrix M.
Proof.
  split; [exact sample_rotation_unit|].
  destruct (matrix_rotation_iff sample_rotation) as (M & HM & Hiff).
  exists M. split; [exact HM|]. apply Hiff. exact sample_rotation_unit.
Defined.

Lemma matrix_roundtrip_witness :
  rotation_matrix (Eigen.Mat 0 (- (1)) 1 0) /\
  call matrix (SO2Group_from_matrix (Eigen.Mat 0 (- (1)) 1 0))
  = Returns (Eigen.Mat 0 (- (1)) 1 0).
Proof.
  split; [exact sample_quarter_turn_matrix|].
  apply (proj2 matrix_roundtrip). exact sample_quarter_turn_matrix.
Defined.

Lemma exp_opp_witness :
  @epsilon sample_constants < 1 /\
  @exp sample_constants (- (1))
  = (A <- @exp sample_constants 1 ;; call (@inverse sample_constants) A).
Proof.
  split; [exact sample_epsilon_lt_1|].
  apply (@exp_opp sample_constants 1 sample_epsilon_lt_1).
Defined.

Lemma sample_pair_above : 3 * 3 + 4 * 4 > @epsilon sample_constants.
Proof. pose proof sample_epsilon. lra. Defined.

Lemma from_pair_returns_iff_witness :
  0 <= @epsilon sample_constants <= 1 /\
  3 * 3 + 4 * 4 > @epsilon sample_constants /\
  exists A, @SO2Group_from_pair sample_constants 3 4 = Returns A.
Proof.
  assert (0 <= @epsilon sample_constants <= 1) as Heps
      by (pose proof sample_epsilon; lra).
  split; [exact Heps|]. split; [exact sample_pair_above|].
  apply (@from_pair_returns_iff sample_constants 3 4 Heps).
  exact sample_pair_above.
Defined.

Lemma fastMultiply_receiver_iff_witness :
  Eigen.y (unit_complex_ SO2Group_default) = 0 /\
  fastMultiply receiver SO2Group_default
  = fastMultiply (distinct SO2Group_default) SO2Group_default.
Proof.
  split; [reflexivity|].
  apply (proj1 (@fastMultiply_receiver_iff sample_constants SO2Group_default)).
  left. reflexivity.
Defined.

Lemma from_pair_normalised_witness :
  0 <= @epsilon sample_constants < 1 /\
  3 * 3 + 4 * 4 > @epsilon sample_constants /\
  @SO2Group_from_pair sample_constants 3 4
  = Returns (Build (Eigen.Vec (3 / sqrt (3 * 3 + 4 * 4))
                              (4 / sqrt (3 * 3 + 4 * 4)))).
Proof.
  split; [exact sample_epsilon_ge_0|]. split; [exact sample_pair_above|].
  apply (@from_pair_normalised sample_constants 3 4 sample_epsilon_ge_0
           sample_pair_above).
Defined.

Lemma sample_small_error : Rabs (/ 2 * @epsilon sample_constants)
                           < @epsilon sample_constants.
Proof.
  pose proof sample_epsilon. rewrite Rabs_pos_eq; lra.
Defined.

Lemma vee_accepts_more_witness :
  0 < @epsilon sample_constants /\
  Rabs (/ 2 * @epsilon sample_constants) < @epsilon sample_constants /\
  @vee sample_constants
       (Eigen.Mat 5 (/ 2 * @epsilon sample_constants - 1) 1 7) = Returns 1.
Proof.
  assert (0 < @epsilon sample_constants) as Heps by apply sample_epsilon.
  split; [exact Heps|]. split; [exact sample_small_error|].
  apply (proj2 (@vee_accepts_more sample_constants Heps)).
  exact sample_small_error.
Defined.

End SophusExtra.

(** * The group operations at double precision *)
Module SophusDoubleFacts.
Import FloatClass PrimFloat SpecFloat FloatOps FloatAxioms SophusDouble.
Local Open Scope float_scope.

(** ** Properties of binary64 arithmetic *)

Lemma SFmul_comm (prec emax : Z) (a b : spec_float) :
  SFmul prec emax a b = SFmul prec emax b a.
Proof.
  destruct a as [sa|sa| |sa ma ea], b as [sb|sb| |sb mb eb];
    unfold SFmul; try reflexivity; try (now rewrite xorb_comm).
  now rewrite xorb_comm, Pos.mul_comm, Z.add_comm.
Qed.

Lemma SFadd_comm (prec emax : Z) (a b : spec_float) :
  SFadd prec emax a b = SFadd prec emax b a.
Proof.
  destruct a as [sa|sa| |sa ma ea], b as [sb|sb| |sb mb eb];
    unfold SFadd; try reflexivity;
    try (destruct sa, sb; reflexivity).
  now rewrite Z.min_comm, Z.add_comm.
Qed.

(** Rounded multiplication and addition are commutative. *)
Lemma mul_comm (a b : float) : a * b = b * a.
Proof. apply Prim2SF_inj. rewrite !mul_spec. apply SFmul_comm. Qed.

Lemma add_comm (a b : float) : a + b = b + a.
Proof. apply Prim2SF_inj. rewrite !add_spec. apply SFadd_comm. Qed.

Lemma opp_involutive (a : float) : - - a = a.
Proof.
  apply Prim2SF_inj. rewrite !opp_spec.
  destruct (Prim2SF a) as [s|s| |s m e]; cbn; now rewrite ?negb_involutive.
Qed.

(** Rounding to nearest even does not look at the sign. *)
Lemma binary_round_aux_opp (prec emax : Z) (s : bool) (m e : Z) (l : location) :
  SFopp (binary_round_aux prec emax s m e l)
  = binary_round_aux prec emax (negb s) m e l.
Proof.
  unfold binary_round_aux.
  destruct (shr_fexp prec emax m e l) as [mrs' e'].
  destruct (shr_fexp prec emax _ e' loc_Exact) as [mrs'' e''].
  destruct (shr_m mrs''); try reflexivity.
  now destruct (Z.leb e'' (Z.sub emax prec)).
Qed.

(** The square of the opposite is the square. *)
Lemma mul_opp_opp (a : float) : (- a) * (- a) = a * a.
Proof.
  apply Prim2SF_inj. rewrite !mul_spec, opp_spec.
  destruct (Prim2SF a) as [s|s| |s m e]; cbn; try reflexivity;
    now destruct s.
Qed.

(** Dividing the opposite gives the opposite of the quotient. *)
Lemma div_opp_l (a b : float) : (- a) / b = - (a / b).
Proof.
  apply Prim2SF_inj. rewrite opp_spec, !div_spec, opp_spec.
  destruct (Prim2SF a) as [sa|sa| |sa ma ea],
    (Prim2SF b) as [sb|sb| |sb mb eb];
    unfold SF64div, SFdiv, SFopp; try reflexivity;
    try (now destruct sa, sb).
  destruct (SFdiv_core_binary prec emax (Z.pos ma) ea (Z.pos mb) eb)
    as [[mz ez] lz].
  fold (SFopp (binary_round_aux prec emax (xorb sa sb) mz ez lz)).
  rewrite binary_round_aux_opp. now destruct sa, sb.
Qed.

Lemma SFcompare_refl (a : spec_float) :
  a <> S754_nan -> SFcompare a a = Some Eq.
Proof.
  destruct a as [s|s| |s m e]; cbn; intros Hnan;
    try reflexivity; try congruence; try (destruct s; reflexivity).
  destruct s; rewrite Z.compare_refl, Pos.compare_cont_refl; reflexivity.
Qed.

(** A number that differs from itself is the NaN. *)
Lemma is_nan_spec (a : float) : is_nan a = true -> Prim2SF a = S754_nan.
Proof.
  unfold is_nan. rewrite eqb_spec. unfold SFeqb. intros H.
  destruct (Prim2SF a) as [s|s| |s m e] eqn:Ha; try reflexivity;
    rewrite SFcompare_refl in H by discriminate; discriminate.
Qed.

(** A finite number is a zero or has a mantissa and an exponent. *)
Lemma is_finite_spec (a : float) :
  is_finite a = true ->
  (exists s, Prim2SF a = S754_zero s) \/
  (exists s m e, Prim2SF a = S754_finite s m e).
Proof.
  unfold is_finite, is_nan, is_infinity.
  rewrite !eqb_spec, abs_spec. unfold SFeqb.
  destruct (Prim2SF a) as [s|s| |s m e]; cbn; intros H;
    try discriminate; eauto.
  destruct s; cbn in H; discriminate.
Qed.

(** A finite number divided by infinity is a zero. *)
Lemma div_infinity_zero (a : float) :
  is_finite a = true -> is_zero (a / infinity) = true.
Proof.
  intros Ha. unfold is_zero. rewrite eqb_spec, div_spec.
  destruct (is_finite_spec a Ha) as [[s ->] | (s & m & e & ->)];
    destruct s; reflexivity.
Qed.

(** A number equal to zero is one of the two zeros, and a number whose
    absolute value is infinity is one of the two infinities. *)
Lemma is_zero_spec (a : float) :
  is_zero a = true -> exists s, Prim2SF a = S754_zero s.
Proof.
  unfold is_zero. rewrite eqb_spec. unfold SFeqb.
  destruct (Prim2SF a) as [s|s| |s m e]; cbn; intros H;
    try discriminate; eauto; destruct s; discriminate.
Qed.

Lemma is_infinity_spec (a : float) :
  is_infinity a = true -> exists s, Prim2SF a = S754_infinity s.
Proof.
  unfold is_infinity. rewrite eqb_spec, abs_spec. unfold SFeqb.
  destruct (Prim2SF a) as [s|s| |s m e]; cbn; intros H;
    try discriminate; eauto.
Qed.

(** The squared modulus of a pair of zeros is the positive zero. *)
Lemma squared_modulus_zero (a b : float) :
  is_zero a = true -> is_zero b = true -> a * a + b * b = 0.
Proof.
  intros Ha Hb. apply Prim2SF_inj. rewrite add_spec, !mul_spec.
  destruct (is_zero_spec a Ha) as [sa ->], (is_zero_spec b Hb) as [sb ->].
  now destruct sa, sb.
Qed.

(** An infinity divided by infinity is not a number. *)
Lemma div_infinity_nan (a : float) :
  is_infinity a = true -> is_nan (a / infinity) = true.
Proof.
  intros Ha. unfold is_nan. rewrite eqb_spec, div_spec.
  destruct (is_infinity_spec a Ha) as [s ->]. reflexivity.
Qed.

(** An operation on the NaN gives the NaN, and nothing is below it. *)
Lemma mul_nan (a : float) : is_nan a = true -> Prim2SF (a * a) = S754_nan.
Proof. intros Ha. rewrite mul_spec, (is_nan_spec a Ha). reflexivity. Qed.

Lemma add_nan_l (a b : float) :
  Prim2SF a = S754_nan -> Prim2SF (a + b) = S754_nan.
Proof. intros Ha. rewrite add_spec, Ha. reflexivity. Qed.

Lemma add_nan_r (a b : float) :
  Prim2SF b = S754_nan -> Prim2SF (a + b) = S754_nan.
Proof.
  intros Hb. rewrite add_spec, Hb. now destruct (Prim2SF a).
Qed.

Lemma ltb_nan (a b : float) : Prim2SF b = S754_nan -> (a <? b) = false.
Proof.
  intros Hb. rewrite ltb_spec, Hb. unfold SFltb.
  now destruct (Prim2SF a).
Qed.

(** Unfolds the monadic plumbing of a member function. *)
Ltac run :=
  cbv beta iota delta
    [bind ret Method_Monad Outcome_Monad assert lift call after self
     unit_complex unit_complex_nonconst_x_assign
     unit_complex_nonconst_y_assign deref construct
     unit_complex_ x y].

Section WithConstants.
Context {K : SophusConstants}.




Lemma from_pair_run_double (real imag : Scalar) :
  SO2Group_from_pair real imag =
  if epsilon <? real * real + imag * imag
  then if epsilon <? sqrt (real * real + imag * imag)
       then Returns
              (Build (Vec (real / sqrt (real * real + imag * imag))
                          (imag / sqrt (real * real + imag * imag))))
       else AssertionFailed
  else AssertionFailed.
Proof.
  unfold SO2Group_from_pair, normalize. run.
  destruct (epsilon <? real * real + imag * imag); [|reflexivity].
  destruct (epsilon <? sqrt (real * real + imag * imag)); reflexivity.
Qed.

Lemma from_vector_run_double (a b : Scalar) :
  SO2Group_from_vector (Vec a b) = SO2Group_from_pair a b.
Proof. reflexivity. Qed.

(** The constructor commutes with conjugation. *)
Lemma from_pair_conjugate (a b : Scalar) :
  SO2Group_from_pair a (- b)
  = (A' <- SO2Group_from_pair a b ;; ret (conjugate A')).
Proof.
  rewrite !from_pair_run_double, mul_opp_opp.
  destruct (epsilon <? a * a + b * b); [|reflexivity].
  destruct (epsilon <? sqrt (a * a + b * b)); [|reflexivity].
  cbn. unfold conjugate. cbn. now rewrite div_opp_l.
Qed.

(** At double precision [inverse] returns the conjugate of the pair the
    constructor makes of the receiver's pair. *)
Lemma inverse_conjugate_double (A : SO2Group) :
  call inverse A
  = (A' <- SO2Group_from_vector (unit_complex_ A) ;; ret (conjugate A')).
Proof.
  destruct A as [[a b]]. cbn [unit_complex_].
  rewrite from_vector_run_double, <- from_pair_conjugate.
  unfold call, inverse. run.
  destruct (SO2Group_from_pair a (- b)); reflexivity.
Qed.

(** The inverse of the inverse is the pair the constructor makes of the
    pair the constructor makes of the receiver's pair. *)
Lemma inverse_inverse_double (A : SO2Group) :
  (Ainv <- call inverse A ;; call inverse Ainv)
  = (A' <- SO2Group_from_vector (unit_complex_ A) ;;
     SO2Group_from_vector (unit_complex_ A')).
Proof.
  rewrite inverse_conjugate_double.
  destruct (SO2Group_from_vector (unit_complex_ A)) as [[[a' b']]|];
    [|reflexivity].
  cbn [bind ret Outcome_Monad]. rewrite inverse_conjugate_double.
  unfold conjugate. cbn [unit_complex_ x y].
  rewrite !from_vector_run_double, from_pair_conjugate.
  destruct (SO2Group_from_pair a' b') as [[[a'' b'']]|]; [|reflexivity].
  cbn. unfold conjugate. cbn. now rewrite opp_involutive.
Qed.

(** At double precision the matrix of the inverse is the transpose of
    the matrix of the renormalised receiver. *)
Lemma matrix_inverse_transpose_double (A : SO2Group) :
  (Ainv <- call inverse A ;; call matrix Ainv)
  = (A' <- SO2Group_from_vector (unit_complex_ A) ;;
     M <- call matrix A' ;; ret (transpose M)).
Proof.
  rewrite inverse_conjugate_double.
  destruct (SO2Group_from_vector (unit_complex_ A)) as [[[a' b']]|];
    [|reflexivity].
  cbn. unfold transpose. cbn. now rewrite opp_involutive.
Qed.

(** X23: overflow.  When the squared modulus of a finite pair overflows
    to infinity, both assertions pass and the constructor returns a pair
    of zeros. *)
Theorem from_pair_overflow (real imag : Scalar) :
  is_finite real = true -> is_finite imag = true ->
  real * real + imag * imag = infinity ->
  (epsilon <? infinity) = true ->
  exists A,
    SO2Group_from_pair real imag = Returns A /\
    is_zero (x (unit_complex_ A)) = true /\
    is_zero (y (unit_complex_ A)) = true.
Proof.
  intros Hreal Himag Hinf Heps. rewrite from_pair_run_double, Hinf.
  change (sqrt infinity) with infinity. rewrite Heps.
  eexists. split; [reflexivity|]. cbn [unit_complex_ x y].
  split; now apply div_infinity_zero.
Qed.

(** X24: a pair with a component that is not a number is stopped by the
    constructor's assertion. *)
Theorem from_pair_rejects_nan (real imag : Scalar) :
  is_nan real = true \/ is_nan imag = true ->
  SO2Group_from_pair real imag = AssertionFailed.
Proof.
  intros Hnan. rewrite from_pair_run_double.
  rewrite ltb_nan; [reflexivity|].
  destruct Hnan as [H | H].
  - apply add_nan_l. now apply mul_nan.
  - apply add_nan_r. now apply mul_nan.
Qed.

(** X25: a pair of zeros, of either sign, is stopped by the constructor's
    assertion whenever [epsilon] is not negative. *)
Theorem from_pair_rejects_zero (real imag : Scalar) :
  is_zero real = true -> is_zero imag = true ->
  (epsilon <? 0) = false ->
  SO2Group_from_pair real imag = AssertionFailed.
Proof.
  intros Hreal Himag Heps.
  rewrite from_pair_run_double, (squared_modulus_zero real imag Hreal Himag).
  now rewrite Heps.
Qed.

(** X26: an infinite real part is not stopped: when the squared modulus
    is infinity both assertions pass and the constructor returns a pair
    whose real part is not a number. *)
Theorem from_pair_infinite (real imag : Scalar) :
  is_infinity real = true ->
  real * real + imag * imag = infinity ->
  (epsilon <? infinity) = true ->
  exists A,
    SO2Group_from_pair real imag = Returns A /\
    is_nan (x (unit_complex_ A)) = true.
Proof.
  intros Hreal Hinf Heps. rewrite from_pair_run_double, Hinf.
  change (sqrt infinity) with infinity. rewrite Heps.
  eexists. split; [reflexivity|]. cbn [unit_complex_ x].
  now apply div_infinity_nan.
Qed.

End WithConstants.

(** ** The operations at sample values *)

#[local] Existing Instance sample_constants.




(** [inverse] renormalises: on the value of [SO2Group(1, 1)] it changes
    the last place, so the result is not the conjugate and the inverse
    of the inverse is not the value; on the zero pair it stops at the
    constructor's assertion. *)
Lemma inverse_renormalises :
  SO2Group_from_pair 1 1
  = Returns (Build (Vec 0.7071067811865475 0.7071067811865475)) /\
  call inverse (Build (Vec 0.7071067811865475 0.7071067811865475))
  = Returns (Build (Vec 0.7071067811865476 (-0.7071067811865476))) /\
  Build (Vec 0.7071067811865476 (-0.7071067811865476))
  <> Build (Vec 0.7071067811865475 (-0.7071067811865475)) /\
  (Ainv <- call inverse (Build (Vec 0.7071067811865475 0.7071067811865475)) ;;
   call inverse Ainv)
  = Returns (Build (Vec 0.7071067811865476 0.7071067811865476)) /\
  Build (Vec 0.7071067811865476 0.7071067811865476)
  <> Build (Vec 0.7071067811865475 0.7071067811865475) /\
  call inverse (Build (Vec 0 0)) = AssertionFailed.
Proof.
  repeat split; try (vm_compute; reflexivity); vm_compute; discriminate.
Qed.




Lemma sample_huge_finite : is_finite 1e200 = true.
Proof. reflexivity. Defined.

Lemma sample_huge_overflow : 1e200 * 1e200 + 1e200 * 1e200 = infinity.
Proof. reflexivity. Defined.

Lemma sample_epsilon_finite : (epsilon <? infinity) = true.
Proof. reflexivity. Defined.

Lemma from_pair_overflow_witness :
  is_finite 1e200 = true /\
  1e200 * 1e200 + 1e200 * 1e200 = infinity /\
  (epsilon <? infinity) = true /\
  exists A,
    SO2Group_from_pair 1e200 1e200 = Returns A /\
    is_zero (x (unit_complex_ A)) = true /\
    is_zero (y (unit_complex_ A)) = true.
Proof.
  split; [exact sample_huge_finite|]. split; [exact sample_huge_overflow|].
  split; [exact sample_epsilon_finite|].
  apply (@from_pair_overflow sample_constants 1e200 1e200
           sample_huge_finite sample_huge_finite sample_huge_overflow
           sample_epsilon_finite).
Defined.

Lemma sample_nan : is_nan nan = true \/ is_nan 1 = true.
Proof. left. reflexivity. Defined.

Lemma from_pair_rejects_nan_witness :
  (is_nan nan = true \/ is_nan 1 = true) /\
  SO2Group_from_pair nan 1 = AssertionFailed.
Proof.
  split; [exact sample_nan|].
  apply (@from_pair_rejects_nan sample_constants nan 1 sample_nan).
Defined.

Lemma sample_zero : is_zero (-0) = true.
Proof. reflexivity. Defined.

Lemma sample_epsilon_nonnegative : (epsilon <? 0) = false.
Proof. reflexivity. Defined.

Lemma from_pair_rejects_zero_witness :
  is_zero (-0) = true /\
  (epsilon <? 0) = false /\
  SO2Group_from_pair (-0) (-0) = AssertionFailed.
Proof.
  split; [exact sample_zero|]. split; [exact sample_epsilon_nonnegative|].
  apply (@from_pair_rejects_zero sample_constants (-0) (-0)
           sample_zero sample_zero sample_epsilon_nonnegative).
Defined.

Lemma sample_infinite : is_infinity neg_infinity = true.
Proof. reflexivity. Defined.

Lemma sample_infinite_modulus :
  neg_infinity * neg_infinity + 1 * 1 = infinity.
Proof. reflexivity. Defined.

Lemma from_pair_infinite_witness :
  is_infinity neg_infinity = true /\
  neg_infinity * neg_infinity + 1 * 1 = infinity /\
  (epsilon <? infinity) = true /\
  exists A,
    SO2Group_from_pair neg_infinity 1 = Returns A /\
    is_nan (x (unit_complex_ A)) = true.
Proof.
  split; [exact sample_infinite|]. split; [exact sample_infinite_modulus|].
  split; [exact sample_epsilon_finite|].
  apply (@from_pair_infinite sample_constants neg_infinity 1
           sample_infinite sample_infinite_modulus sample_epsilon_finite).
Defined.

End SophusDoubleFacts.

(** * The laws of inverse and product in both instantiations *)
Module SophusLaws.
Import Sophus SophusFacts.

(** C4: [inverse] returns the conjugate of the receiver's pair as the
    normalising constructor renormalises it, bit for bit at double
    precision, and the inverse of the inverse is the receiver's pair
    renormalised twice.  In exact real arithmetic, on a pair [A] of unit
    length [inverse] returns the conjugate pair (real, -imag) and does
    not fail, [A * A.inverse()] is the identity and
    [A.inverse().inverse()] is [A]. *)
Theorem inverse_conjugate :
  (forall (K : SophusDouble.SophusConstants) (A : SophusDouble.SO2Group),
      SophusDouble.call SophusDouble.inverse A
      = (A' <- SophusDouble.SO2Group_from_vector
                 (SophusDouble.unit_complex_ A) ;;
         ret (SophusDouble.conjugate A')) /\
      (Ainv <- SophusDouble.call SophusDouble.inverse A ;;
       SophusDouble.call SophusDouble.inverse Ainv)
      = (A' <- SophusDouble.SO2Group_from_vector
                 (SophusDouble.unit_complex_ A) ;;
         SophusDouble.SO2Group_from_vector (SophusDouble.unit_complex_ A'))) /\
  (forall (K : SophusConstants) (A : SO2Group),
      epsilon < 1 -> unit_length A ->
      call inverse A =
        Returns (Build (Eigen.Vec (Eigen.x (unit_complex_ A))
                                  (- Eigen.y (unit_complex_ A)))) /\
      (Ainv <- call inverse A ;; call (operator_mul (distinct Ainv)) A)
        = Returns SO2Group_default /\
      (Ainv <- call inverse A ;; call inverse Ainv) = Returns A).
Proof.
  split.
  - intros K A. split.
    + apply SophusDoubleFacts.inverse_conjugate_double.
    + apply SophusDoubleFacts.inverse_inverse_double.
  - intros K A Heps HA. now apply inverse_conjugate_exact.
Qed.

Lemma inverse_conjugate_witness :
  @epsilon sample_constants < 1 /\
  unit_length sample_rotation /\
  call (@inverse sample_constants) sample_rotation
  = Returns (Build (Eigen.Vec 0.6 (- (0.8)))) /\
  SophusDouble.call (@SophusDouble.inverse SophusDouble.sample_constants)
                    SophusDouble.sample_rotation
  = (A' <- @SophusDouble.SO2Group_from_vector SophusDouble.sample_constants
             (SophusDouble.unit_complex_ SophusDouble.sample_rotation) ;;
     ret (SophusDouble.conjugate A')).
Proof.
  assert (@epsilon sample_constants < 1) as Heps by apply sample_epsilon.
  split; [exact Heps|]. split; [exact sample_rotation_unit|]. split.
  - exact (proj1 (proj2 inverse_conjugate sample_constants sample_rotation
                    Heps sample_rotation_unit)).
  - exact (proj1 (proj1 inverse_conjugate SophusDouble.sample_constants
                    SophusDouble.sample_rotation)).
Defined.



(** X17: the matrix of the inverse is the transpose of the matrix of the
    receiver as the normalising constructor renormalises it, bit for bit
    at double precision and in exact real arithmetic. *)
Theorem matrix_inverse_transpose :
  (forall (K : SophusDouble.SophusConstants) (A : SophusDouble.SO2Group),
      (Ainv <- SophusDouble.call SophusDouble.inverse A ;;
       SophusDouble.call SophusDouble.matrix Ainv)
      = (A' <- SophusDouble.SO2Group_from_vector
                 (SophusDouble.unit_complex_ A) ;;
         M <- SophusDouble.call SophusDouble.matrix A' ;;
         ret (SophusDouble.transpose M))) /\
  (forall (K : SophusConstants) (A : SO2Group),
      (Ainv <- call inverse A ;; call matrix Ainv)
      = (A' <- SO2Group_from_vector (unit_complex_ A) ;;
         M <- call matrix A' ;; ret (Eigen.transpose M))).
Proof.
  split.
  - intros K A. apply SophusDoubleFacts.matrix_inverse_transpose_double.
  - intros K A. apply SophusExtra.matrix_inverse_transpose_exact.
Qed.

End SophusLaws.
